(** * The domain-object access layer of Open MCT (src/api/objects/ObjectAPI.js)

    A shallow embedding of [ObjectAPI]: the provider registry, the CRUD
    dispatcher that is installed for ['save'], ['delete'] and ['get'], and the
    root composition registry, followed by the properties the specification
    states about them.

    Modelling conventions.
    - JavaScript values are the type [value]; objects are references into a
      store ([heap]), so that [===] on objects is identity of references.
      Number-valued fields (IEEE doubles) are not part of the universe.
    - The object used as a dictionary ([this.providers]) has its own
      properties, a finite map from property keys to providers, and a
      prototype: a read that finds no own property goes on along the
      prototype chain, so the names a [{}] inherits from [Object.prototype]
      are found, and an assignment to [__proto__] replaces the prototype.
    - Arrays live in the store too: [unshift] updates the array in place,
      [filter] allocates a new one, and the root object aliases the array it
      was built from.
    - A call either completes normally or throws ([completion]); a promise
      is a value that is returned normally. *)

From stdpp Require Import base option gmap strings list fin_maps.

Local Open Scope string_scope.

(** ** JavaScript values and the store *)

Definition loc := nat.

Inductive value :=
  | VUndefined
  | VNull
  | VBool (b : bool)
  | VStr (s : string)
  | VObj (l : loc).

Global Instance value_eq_dec : EqDecision value.
Proof. solve_decision. Defined.

(** What a [throw] carries: the built-in [TypeError] of a property read on
    [undefined] or [null], an [Error] made with [new Error(message)], or
    any value thrown by a collaborator. *)
Inductive error :=
  | TypeError
  | Error (message : string)
  | Thrown (v : value).

Global Instance error_eq_dec : EqDecision error.
Proof. solve_decision. Defined.

Inductive completion (A : Type) :=
  | Normal (a : A)
  | Throw (e : error).
Arguments Normal {A} a.
Arguments Throw {A} e.

Global Instance completion_eq_dec `{EqDecision A} : EqDecision (completion A).
Proof. solve_decision. Defined.

Global Instance completion_ret : MRet completion := @Normal.
Global Instance completion_bind : MBind completion := λ A B f c,
  match c with
  | Normal a => f a
  | Throw e => Throw e
  end.

Record heap := Heap {
  objects : gmap loc (gmap string value);
  arrays : gmap loc (list value)
}.

(** [v[f]] for the two names this file reads, [identifier] and [namespace]:
    a [TypeError] on [undefined] and [null], [undefined] on the other
    primitives and on an object without the field. *)
Definition get_field (h : heap) (v : value) (f : string) : completion value :=
  match v with
  | VUndefined | VNull => Throw TypeError
  | VBool _ | VStr _ => Normal VUndefined
  | VObj l => Normal (default VUndefined (objects h !! l ≫= (.!! f)))
  end.

(** [v === w] *)
Definition strict_eq (v w : value) : bool :=
  match v, w with
  | VUndefined, VUndefined => true
  | VNull, VNull => true
  | VBool a, VBool b => bool_decide (a = b)
  | VStr s, VStr t => bool_decide (s = t)
  | VObj l, VObj m => bool_decide (l = m)
  | _, _ => false
  end.

(** The property key a value is turned into when it indexes an object
    (objects without a [toString] of their own). *)
Definition to_property_key (v : value) : string :=
  match v with
  | VUndefined => "undefined"
  | VNull => "null"
  | VBool true => "true"
  | VBool false => "false"
  | VStr s => s
  | VObj _ => "[object Object]"
  end.

Definition read_array (h : heap) (l : loc) : list value :=
  default [] (arrays h !! l).

Definition write_array (h : heap) (l : loc) (elems : list value) : heap :=
  Heap (objects h) (<[l := elems]> (arrays h)).

Definition alloc_array (h : heap) (elems : list value) : loc * heap :=
  let l := fresh (dom (arrays h)) in (l, write_array h l elems).

(** ** Providers *)

Inductive promise (A : Type) :=
  | Resolved (a : A)
  | Rejected (reason : value)
  | Pending.
Arguments Resolved {A} a.
Arguments Rejected {A} reason.
Arguments Pending {A}.

(** The object literal built by the root provider; [composition] is the
    reference to the registry array, not a copy of it. *)
Record RootObject := {
  name : string;
  type : string;
  composition : loc
}.

Inductive returned :=
  | RetValue (v : value)
  | RetPromise (p : promise value)
  | RetRoot (p : promise RootObject).

(** A method of a provider, applied to the [arguments] it is called with.
    The bodies of registered providers are collaborators of this file. *)
Definition method := list value → completion returned.

Inductive method_name := MSave | MDelete | MGet.

Global Instance method_name_eq_dec : EqDecision method_name.
Proof. solve_decision. Defined.

Definition method_string (m : method_name) : string :=
  match m with
  | MSave => "save"
  | MDelete => "delete"
  | MGet => "get"
  end.

(** The [ObjectProvider] interface: every method is optional. *)
Record ObjectProvider := {
  op_get : option method;
  op_save : option method;
  op_delete : option method
}.

(** A provider is [this.rootProvider] or an object handed to the API. Like
    the root provider, which is the literal [{ get: ... }], such an object
    is taken to be an ordinary object whose own properties are its methods
    and whose prototype is [Object.prototype]. *)
Inductive provider :=
  | rootProvider
  | External (p : ObjectProvider).

(** What a read of [this.providers[k]] can find: a provider, the value
    [Object.prototype] has under a name (a built-in function, [Object]
    itself under [constructor], and [Object.prototype] under [__proto__]),
    or the function that a provider has as a method. All of them are
    objects, so all of them are truthy, and only the first kind has
    methods named [get], [save] or [delete]. *)
Inductive resolved :=
  | Provider (p : provider)
  | Builtin (name : string)
  | MethodOf (p : provider) (m : method_name).

(** The property names of [Object.prototype]. *)
Definition object_prototype_names : list string :=
  [ "constructor"; "hasOwnProperty"; "isPrototypeOf"; "propertyIsEnumerable";
    "toLocaleString"; "toString"; "valueOf"; "__proto__";
    "__defineGetter__"; "__defineSetter__"; "__lookupGetter__";
    "__lookupSetter__" ].

(** [Object.prototype[k]] *)
Definition object_prototype_property (k : string) : option resolved :=
  if bool_decide (k ∈ object_prototype_names) then Some (Builtin k) else None.

Definition method_of_string (k : string) : option method_name :=
  if bool_decide (k = "save") then Some MSave
  else if bool_decide (k = "delete") then Some MDelete
  else if bool_decide (k = "get") then Some MGet
  else None.

(** Whether the provider has a property of the name of the method. *)
Definition has_method (p : provider) (m : method_name) : bool :=
  match p with
  | rootProvider =>
      match m with
      | MGet => true
      | MSave | MDelete => false
      end
  | External q =>
      match m with
      | MGet => bool_decide (is_Some (op_get q))
      | MSave => bool_decide (is_Some (op_save q))
      | MDelete => bool_decide (is_Some (op_delete q))
      end
  end.

(** [p[k]] for a provider [p] and a name other than [__proto__]: its own
    methods first, then what it inherits from [Object.prototype]. *)
Definition provider_property (p : provider) (k : string) : option resolved :=
  match method_of_string k with
  | Some m =>
      if has_method p m then Some (MethodOf p m)
      else object_prototype_property k
  | None => object_prototype_property k
  end.

(** ** ObjectAPI *)

Module ObjectAPI.

(** [providers] holds the own properties of [this.providers] and
    [providers_proto] its prototype: [None] for [Object.prototype], which
    is the prototype of the [{}] the constructor makes, and [Some p] once a
    provider was assigned to [__proto__]. *)
Record t := Build {
  providers : gmap string provider;
  providers_proto : option provider;
  rootRegistry : loc;
  fallbackProvider : option provider
}.

(** [function ObjectAPI()] *)
Definition new (h : heap) : t * heap :=
  let '(l, h') := alloc_array h [] in
  (Build ∅ None l None, h').

(** The [get] of [this.rootProvider], bound to the API: it reads
    [this.rootRegistry] when it is called and ignores its arguments. *)
Definition rootProvider_get (api : t) : method := λ _,
  Normal (RetRoot (Resolved {|
    name := "The root object";
    type := "root";
    composition := rootRegistry api
  |})).

(** [provider[method]] *)
Definition lookup_method (api : t) (p : resolved) (m : method_name)
  : option method :=
  match p with
  | Provider rootProvider =>
      match m with
      | MGet => Some (rootProvider_get api)
      | MSave | MDelete => None
      end
  | Provider (External q) =>
      match m with
      | MGet => op_get q
      | MSave => op_save q
      | MDelete => op_delete q
      end
  | Builtin _ | MethodOf _ _ => None
  end.

Definition _supersecretSetFallbackProvider (p : option provider) (api : t) : t :=
  Build (providers api) (providers_proto api) (rootRegistry api) p.

(** [a || b] on what a lookup finds: an object is truthy, [undefined] is
    not. *)
Definition or_else (a b : option resolved) : option resolved :=
  match a with
  | Some p => Some p
  | None => b
  end.

(** [this.providers[k]]: an own property, or else what the prototype chain
    has. Under [__proto__] the chain has the accessor of
    [Object.prototype], which gives the prototype of [this.providers]. *)
Definition lookup_property (api : t) (k : string) : option resolved :=
  match providers api !! k with
  | Some p => Some (Provider p)
  | None =>
      match providers_proto api with
      | None => object_prototype_property k
      | Some p =>
          if bool_decide (k = "__proto__") then Some (Provider p)
          else provider_property p k
      end
  end.

Definition getProvider (api : t) (h : heap) (key : value)
  : completion (option resolved) :=
  id ← get_field h key "identifier";
  if strict_eq id (VStr "ROOT") then Normal (Some (Provider rootProvider))
  else
    ns ← get_field h key "namespace";
    Normal (or_else (lookup_property api (to_property_key ns))
                    (Provider <$> fallbackProvider api)).

(** [this.providers[namespace] = provider]: an assignment to [__proto__]
    runs the setter that [Object.prototype] has for it and replaces the
    prototype, unless [__proto__] is an own property; any other
    assignment makes or updates an own property. *)
Definition addProvider (namespace : value) (p : provider) (api : t) : t :=
  let k := to_property_key namespace in
  match providers api !! k with
  | None =>
      if bool_decide (k = "__proto__")
      then Build (providers api) (Some p) (rootRegistry api) (fallbackProvider api)
      else Build (<[k := p]> (providers api)) (providers_proto api)
                 (rootRegistry api) (fallbackProvider api)
  | Some _ =>
      Build (<[k := p]> (providers api)) (providers_proto api)
            (rootRegistry api) (fallbackProvider api)
  end.

(** The function installed as [ObjectAPI.prototype[method]]. *)
Definition dispatch (m : method_name) (api : t) (h : heap)
    (arguments : list value) : completion returned :=
  let key := nth 0 arguments VUndefined in
  p ← getProvider api h key;
  match p with
  | None => Throw (Error "No Provider Matched")
  | Some p =>
      match lookup_method api p m with
      | None =>
          Throw (Error ("Provider does not support [" +:+ method_string m +:+ "]."))
      | Some f => f arguments
      end
  end.

Definition save := dispatch MSave.
Definition delete := dispatch MDelete.
Definition get := dispatch MGet.

Definition addRoot (key : value) (api : t) (h : heap) : t * heap :=
  (api, write_array h (rootRegistry api) (key :: read_array h (rootRegistry api))).

(** The callback of the [filter] in [removeRoot]. *)
Definition removeRoot_keep (h : heap) (key k : value) : completion bool :=
  ki ← get_field h k "identifier";
  keyi ← get_field h key "identifier";
  if negb (strict_eq ki keyi) then Normal true
  else
    kn ← get_field h k "namespace";
    keyn ← get_field h key "namespace";
    Normal (negb (strict_eq kn keyn)).

(** [Array.prototype.filter] with a callback that may throw. *)
Fixpoint filter_array (f : value → completion bool) (elems : list value)
  : completion (list value) :=
  match elems with
  | [] => Normal []
  | k :: rest =>
      b ← f k;
      kept ← filter_array f rest;
      Normal (if (b : bool) then k :: kept else kept)
  end.

Definition removeRoot (key : value) (api : t) (h : heap) : completion (t * heap) :=
  kept ← filter_array (removeRoot_keep h key) (read_array h (rootRegistry api));
  let '(l, h') := alloc_array h kept in
  Normal (Build (providers api) (providers_proto api) l (fallbackProvider api), h').

End ObjectAPI.

(** ** Reading a state *)

(** The composition a returned root object shows when it is read in the
    store [h]. *)
Definition composition_of (h : heap) (c : completion returned)
  : option (list value) :=
  match c with
  | Normal (RetRoot (Resolved r)) => Some (read_array h (composition r))
  | _ => None
  end.

(** The contents of the root registry of a state. *)
Definition registry (s : ObjectAPI.t * heap) : list value :=
  read_array s.2 (ObjectAPI.rootRegistry s.1).

(** [v[f]] as a value, for a [v] on which the read does not throw. *)
Definition field (h : heap) (v : value) (f : string) : value :=
  match get_field h v f with
  | Normal x => x
  | Throw _ => VUndefined
  end.

(** Neither [undefined] nor [null]: property reads succeed. *)
Definition defined (v : value) : Prop := v ≠ VUndefined ∧ v ≠ VNull.

(** The test of [removeRoot]: [k] is dropped when both comparisons of the
    callback find strictly equal fields. *)
Definition same_root (h : heap) (key k : value) : Prop :=
  field h k "identifier" = field h key "identifier" ∧
  field h k "namespace" = field h key "namespace".

Global Instance same_root_dec h key k : Decision (same_root h key k).
Proof. unfold same_root. apply _. Defined.


(** ** Sample data

    Objects of the documented shapes, used to run the definitions. *)

(** The [Identifier] of the typedef: [{ namespace, key }]. *)
Definition identifier_object (ns k : string) : gmap string value :=
  {[ "namespace" := VStr ns; "key" := VStr k ]}.

(** A key as [getProvider] and [removeRoot] read it:
    [{ namespace, identifier }]. *)
Definition key_object (ns id : string) : gmap string value :=
  {[ "namespace" := VStr ns; "identifier" := VStr id ]}.

(** A [DomainObject]: its [identifier] field refers to an [Identifier]. *)
Definition domain_object (id : loc) (ty nm : string) : gmap string value :=
  {[ "identifier" := VObj id; "type" := VStr ty; "name" := VStr nm ]}.

Definition heap_of (objs : list (gmap string value)) : heap :=
  Heap (list_to_map (imap (λ i o, (i, o)) objs)) ∅.

(** A provider that echoes its first argument, for each method it has. *)
Definition echo : method := λ arguments,
  Normal (RetPromise (Resolved (nth 0 arguments VUndefined))).

Definition get_only : ObjectProvider :=
  {| op_get := Some echo; op_save := None; op_delete := None |}.
Definition save_delete_only : ObjectProvider :=
  {| op_get := None; op_save := Some echo; op_delete := Some echo |}.
Definition full : ObjectProvider :=
  {| op_get := Some echo; op_save := Some echo; op_delete := Some echo |}.

(** Five objects at the references 0 to 4: two identifiers of one
    namespace, the root sentinel, a domain object that embeds the first
    identifier, and an identifier of another namespace. *)
Definition sample_heap : heap :=
  heap_of [ identifier_object "n" "x"; identifier_object "n" "y";
            key_object "other" "ROOT"; domain_object 0 "folder" "f";
            identifier_object "m" "z" ].

(** A new API over the sample objects, and the same with a provider
    registered for the namespace ["n"]. *)
Definition fresh_api : ObjectAPI.t := (ObjectAPI.new sample_heap).1.
Definition fresh_heap : heap := (ObjectAPI.new sample_heap).2.
Definition api_with (p : ObjectProvider) : ObjectAPI.t :=
  ObjectAPI.addProvider (VStr "n") (External p) fresh_api.

(** Keys whose namespaces are names that every object has: one that
    [Object.prototype] has, the name of a method, and [__proto__]; and a
    new API over them. *)
Definition inherited_heap : heap :=
  heap_of [ identifier_object "toString" "x"; identifier_object "get" "x";
            identifier_object "__proto__" "x" ].
Definition plain_api : ObjectAPI.t := (ObjectAPI.new inherited_heap).1.
Definition plain_heap : heap := (ObjectAPI.new inherited_heap).2.

(** The state after [addRoot] of the given keys on a new API, the head of
    the list being added last. *)
Definition roots_of (keys : list value) : ObjectAPI.t * heap :=
  foldr (λ k s, ObjectAPI.addRoot k s.1 s.2) (fresh_api, fresh_heap) keys.

(** [undefined] or [null]: a property read throws. *)
Definition nullish (v : value) : Prop := v = VUndefined ∨ v = VNull.

Global Instance nullish_dec v : Decision (nullish v).
Proof. unfold nullish. apply _. Defined.

(** [addRoot] called for each key of the list in turn, the head first. *)
Definition add_roots (keys : list value) (s : ObjectAPI.t * heap)
  : ObjectAPI.t * heap :=
  foldl (λ s k, ObjectAPI.addRoot k s.1 s.2) s keys.

(** * Properties *)

Import ObjectAPI.

Section basics.
Implicit Types (v w : value) (h : heap) (l : loc).

Lemma strict_eq_spec v w : strict_eq v w = true ↔ v = w.
Proof.
  destruct v, w; simpl; rewrite ?bool_decide_eq_true;
    split; intros; simplify_eq; done.
Qed.

Lemma strict_eq_false v w : strict_eq v w = false ↔ v ≠ w.
Proof.
  rewrite <- strict_eq_spec. destruct (strict_eq v w); naive_solver.
Qed.

Lemma bind_Normal {A B} (a : A) (f : A → completion B) :
  Normal a ≫= f = f a.
Proof. reflexivity. Qed.

Lemma read_write_array h l elems :
  read_array (write_array h l elems) l = elems.
Proof. unfold read_array, write_array; simpl. by rewrite lookup_insert_eq. Qed.

Lemma read_write_array_ne h l l' elems :
  l ≠ l' → read_array (write_array h l elems) l' = read_array h l'.
Proof.
  intros Hne. unfold read_array, write_array; simpl.
  by rewrite lookup_insert_ne.
Qed.

Lemma get_field_write_array h l elems v f :
  get_field (write_array h l elems) v f = get_field h v f.
Proof. by destruct v. Qed.

Lemma alloc_array_fresh h elems :
  arrays h !! (alloc_array h elems).1 = None.
Proof. simpl. apply not_elem_of_dom, is_fresh. Qed.

Lemma get_field_namespace h v f x :
  get_field h v f = Normal x → ∃ y, get_field h v "namespace" = Normal y.
Proof. destruct v; simpl; intros; simplify_eq; eauto. Qed.
End basics.

Section getProvider.
Implicit Types (api : ObjectAPI.t) (h : heap) (key id ns : value).
Implicit Types (k : string).

Lemma getProvider_root api h key :
  get_field h key "identifier" = Normal (VStr "ROOT") →
  getProvider api h key = Normal (Some (Provider rootProvider)).
Proof. intros Hid. unfold getProvider. by rewrite Hid. Qed.

Lemma getProvider_namespace api h key id ns :
  get_field h key "identifier" = Normal id →
  id ≠ VStr "ROOT" →
  get_field h key "namespace" = Normal ns →
  getProvider api h key =
    Normal (or_else (lookup_property api (to_property_key ns))
                    (Provider <$> fallbackProvider api)).
Proof.
  intros Hid Hne Hns. unfold getProvider. rewrite Hid, bind_Normal.
  apply strict_eq_false in Hne. by rewrite Hne, Hns.
Qed.

(** An own property shadows whatever the prototype chain has. *)
Lemma lookup_property_own api k p :
  providers api !! k = Some p → lookup_property api k = Some (Provider p).
Proof. intros Hp. unfold lookup_property. by rewrite Hp. Qed.

Lemma object_prototype_property_None k :
  object_prototype_property k = None ↔ k ∉ object_prototype_names.
Proof.
  unfold object_prototype_property. case_bool_decide; split; intros; done.
Qed.

(** With [Object.prototype] as the prototype a read finds nothing exactly
    under the names that are neither registered nor inherited. *)
Lemma lookup_property_None api k :
  providers_proto api = None →
  lookup_property api k = None ↔
    providers api !! k = None ∧ k ∉ object_prototype_names.
Proof.
  intros Hproto. unfold lookup_property. rewrite Hproto.
  destruct (providers api !! k) as [p |].
  - split; [done | by intros [? _]].
  - rewrite object_prototype_property_None. tauto.
Qed.

Lemma lookup_property_inherited api k :
  providers_proto api = None → providers api !! k = None →
  k ∈ object_prototype_names →
  lookup_property api k = Some (Builtin k).
Proof.
  intros Hproto Hown Hin. unfold lookup_property, object_prototype_property.
  rewrite Hown, Hproto. by rewrite bool_decide_eq_true_2.
Qed.

(** ["undefined"] is not a name that anything along the chain has. *)
Lemma lookup_property_undefined api :
  lookup_property api "undefined" = Provider <$> providers api !! "undefined".
Proof.
  unfold lookup_property. destruct (providers api !! "undefined"); [done |].
  by destruct (providers_proto api) as [[| q] |].
Qed.
End getProvider.

(** C1 at a failing input. Nothing is registered for the namespace
    ["toString"]. With a fallback provider set, [getProvider] does not
    return the fallback for [{ namespace: "toString", key: "x" }], and with
    none set it does not return [undefined]: in both cases it returns the
    function that [this.providers], an object made by [{}], inherits under
    that name. *)
Lemma getProvider_finds_inherited_name :
  get_field plain_heap (VObj 0) "identifier" = Normal VUndefined ∧
  get_field plain_heap (VObj 0) "namespace" = Normal (VStr "toString") ∧
  providers plain_api !! "toString" = None ∧
  fallbackProvider plain_api = None ∧
  getProvider plain_api plain_heap (VObj 0) = Normal (Some (Builtin "toString")) ∧
  getProvider (_supersecretSetFallbackProvider (Some (External full)) plain_api)
      plain_heap (VObj 0) = Normal (Some (Builtin "toString")).
Proof. repeat split; reflexivity. Qed.

(** X17. What [getProvider] does for every key: the root provider when the
    [identifier] field is ["ROOT"]; otherwise whatever the read of
    [this.providers] under the namespace finds, which is the registered
    provider when there is one; otherwise the fallback provider, or
    [undefined] when none is set. As long as nothing was assigned to
    [__proto__], the read finds nothing exactly when the namespace is
    neither registered nor a property name of [Object.prototype]. *)
Theorem getProvider_priority (api : ObjectAPI.t) (h : heap) (key id ns : value) :
  get_field h key "identifier" = Normal id →
  get_field h key "namespace" = Normal ns →
  (id = VStr "ROOT" →
     getProvider api h key = Normal (Some (Provider rootProvider))) ∧
  (id ≠ VStr "ROOT" → ∀ p,
     providers api !! to_property_key ns = Some p →
     getProvider api h key = Normal (Some (Provider p))) ∧
  (id ≠ VStr "ROOT" → ∀ r,
     lookup_property api (to_property_key ns) = Some r →
     getProvider api h key = Normal (Some r)) ∧
  (id ≠ VStr "ROOT" → lookup_property api (to_property_key ns) = None →
     getProvider api h key = Normal (Provider <$> fallbackProvider api)) ∧
  (providers_proto api = None →
     lookup_property api (to_property_key ns) = None ↔
       providers api !! to_property_key ns = None ∧
       to_property_key ns ∉ object_prototype_names).
Proof.
  intros Hid Hns. split; [| split; [| split; [| split]]].
  - intros ->. by apply getProvider_root.
  - intros Hne p Hp. rewrite (getProvider_namespace _ _ _ _ _ Hid Hne Hns).
    by rewrite (lookup_property_own _ _ _ Hp).
  - intros Hne r Hr. rewrite (getProvider_namespace _ _ _ _ _ Hid Hne Hns).
    by rewrite Hr.
  - intros Hne Hr. rewrite (getProvider_namespace _ _ _ _ _ Hid Hne Hns).
    by rewrite Hr.
  - apply lookup_property_None.
Qed.

Lemma getProvider_priority_witness :
  get_field fresh_heap (VObj 0) "identifier" = Normal VUndefined ∧
  get_field fresh_heap (VObj 0) "namespace" = Normal (VStr "n") ∧
  getProvider (api_with get_only) fresh_heap (VObj 0)
    = Normal (Some (Provider (External get_only))) ∧
  getProvider (api_with get_only) fresh_heap (VObj 4) = Normal None.
Proof.
  assert (Hid : get_field fresh_heap (VObj 0) "identifier" = Normal VUndefined)
    by reflexivity.
  assert (Hns : get_field fresh_heap (VObj 0) "namespace" = Normal (VStr "n"))
    by reflexivity.
  split; [exact Hid | split; [exact Hns |]].
  destruct (getProvider_priority (api_with get_only) _ _ _ _ Hid Hns)
    as (_ & Hregistered & _).
  destruct (getProvider_priority (api_with get_only) fresh_heap (VObj 4)
              VUndefined (VStr "m") eq_refl eq_refl)
    as (_ & _ & _ & Hnothing & Hiff).
  split.
  - apply Hregistered; [discriminate | reflexivity].
  - rewrite Hnothing; [reflexivity | discriminate |].
    apply Hiff; [reflexivity |]. split; [reflexivity |].
    apply object_prototype_property_None. reflexivity.
Defined.

Section dispatch.
Implicit Types (api : ObjectAPI.t) (h : heap) (key id ns : value).
Implicit Types (m : method_name) (arguments : list value).

Lemma dispatch_no_provider m api h arguments :
  getProvider api h (nth 0 arguments VUndefined) = Normal None →
  dispatch m api h arguments = Throw (Error "No Provider Matched").
Proof. intros Hp. unfold dispatch. by rewrite Hp. Qed.

Lemma dispatch_unsupported m api h arguments p :
  getProvider api h (nth 0 arguments VUndefined) = Normal (Some p) →
  lookup_method api p m = None →
  dispatch m api h arguments =
    Throw (Error ("Provider does not support [" +:+ method_string m +:+ "].")).
Proof. intros Hp Hm. unfold dispatch. by rewrite Hp, bind_Normal, Hm. Qed.

Lemma dispatch_forward m api h arguments p f :
  getProvider api h (nth 0 arguments VUndefined) = Normal (Some p) →
  lookup_method api p m = Some f →
  dispatch m api h arguments = f arguments.
Proof. intros Hp Hm. unfold dispatch. by rewrite Hp, bind_Normal, Hm. Qed.

Lemma dispatch_key_throws m api h arguments e :
  getProvider api h (nth 0 arguments VUndefined) = Throw e →
  dispatch m api h arguments = Throw e.
Proof. intros Hp. unfold dispatch. by rewrite Hp. Qed.
End dispatch.




(** C3. When the provider that resolves for the first argument has no
    method of the requested name, the call throws
    ["Provider does not support [<method>]."], whose text carries the name of
    the requested method; which other methods the provider has plays no
    part. *)
Theorem unsupported_operation (m : method_name) (api : ObjectAPI.t) (h : heap)
    (arguments : list value) (p : resolved) :
  getProvider api h (nth 0 arguments VUndefined) = Normal (Some p) →
  lookup_method api p m = None →
  dispatch m api h arguments =
    Throw (Error ("Provider does not support [" +:+ method_string m +:+ "].")).
Proof. apply dispatch_unsupported. Qed.

Lemma unsupported_operation_witness :
  lookup_method (api_with save_delete_only)
      (Provider (External save_delete_only)) MSave = Some echo ∧
  lookup_method (api_with save_delete_only)
      (Provider (External save_delete_only)) MDelete = Some echo ∧
  get (api_with save_delete_only) fresh_heap [VObj 0]
    = Throw (Error "Provider does not support [get].").
Proof.
  split; [reflexivity | split; [reflexivity |]].
  apply (unsupported_operation MGet (api_with save_delete_only) fresh_heap
           [VObj 0] (Provider (External save_delete_only))); reflexivity.
Defined.

(** C9. The root provider has [get] only: for a key whose [identifier]
    field is ["ROOT"], [save] and [delete] throw the unsupported-operation
    error, whatever providers are registered and whatever the fallback is. *)
Theorem root_save_delete_unsupported (api : ObjectAPI.t) (h : heap)
    (key : value) (rest : list value) :
  get_field h key "identifier" = Normal (VStr "ROOT") →
  save api h (key :: rest) = Throw (Error "Provider does not support [save].") ∧
  delete api h (key :: rest) = Throw (Error "Provider does not support [delete].").
Proof.
  intros Hid. pose proof (getProvider_root api h key Hid) as Hroot.
  split.
  - by apply (dispatch_unsupported MSave api h (key :: rest)
                (Provider rootProvider)).
  - by apply (dispatch_unsupported MDelete api h (key :: rest)
                (Provider rootProvider)).
Qed.

Lemma root_save_delete_unsupported_witness :
  let api := _supersecretSetFallbackProvider (Some (External full))
               (addProvider (VStr "other") (External full) fresh_api) in
  providers api !! "other" = Some (External full) ∧
  save api fresh_heap [VObj 2] = Throw (Error "Provider does not support [save].") ∧
  delete api fresh_heap [VObj 2] = Throw (Error "Provider does not support [delete].").
Proof.
  split; [reflexivity |].
  apply (root_save_delete_unsupported _ fresh_heap (VObj 2) []).
  reflexivity.
Defined.

(** C5 at a failing input. A provider with [save] and [delete] is registered
    for the namespace ["n"], and the domain object at reference 3 embeds the
    identifier [{ namespace: "n", key: "x" }]. The dispatcher looks the
    provider up with the domain object itself as the key, so it reads the
    domain object's own [namespace] field, which is [undefined], and finds no
    provider, although the embedded identifier resolves to the registered
    one. *)
Lemma save_delete_route_on_first_argument :
  get_field fresh_heap (VObj 3) "identifier" = Normal (VObj 0) ∧
  getProvider (api_with full) fresh_heap (VObj 0)
    = Normal (Some (Provider (External full))) ∧
  lookup_method (api_with full) (Provider (External full)) MSave = Some echo ∧
  lookup_method (api_with full) (Provider (External full)) MDelete = Some echo ∧
  getProvider (api_with full) fresh_heap (VObj 3) = Normal None ∧
  save (api_with full) fresh_heap [VObj 3] = Throw (Error "No Provider Matched") ∧
  delete (api_with full) fresh_heap [VObj 3] = Throw (Error "No Provider Matched").
Proof. repeat split; reflexivity. Qed.

(** What the dispatcher does for all three methods: the key is the first
    argument, and the resolved method receives the whole argument list. *)
Lemma dispatch_routes_on_first_argument (m : method_name) (api : ObjectAPI.t)
    (h : heap) (key : value) (rest : list value) (p : resolved) (f : method) :
  getProvider api h key = Normal (Some p) →
  lookup_method api p m = Some f →
  dispatch m api h (key :: rest) = f (key :: rest).
Proof. intros Hp Hm. by apply (dispatch_forward m api h (key :: rest) p f). Qed.

(** C6. The [get] of the root provider ignores its arguments and returns a
    resolved promise of an object named ["The root object"], of type
    ["root"], whose composition is the registry as it is when [get] is
    called: after an [addRoot] the next [get] shows the added key in front. *)
Theorem rootProvider_get_resolves (api : ObjectAPI.t) (h : heap)
    (arguments : list value) (k : value) :
  lookup_method api (Provider rootProvider) MGet = Some (rootProvider_get api) ∧
  rootProvider_get api arguments = rootProvider_get api [] ∧
  (∃ r, rootProvider_get api arguments = Normal (RetRoot (Resolved r)) ∧
        name r = "The root object" ∧ type r = "root" ∧
        read_array h (composition r) = registry (api, h)) ∧
  composition_of (addRoot k api h).2
      (rootProvider_get (addRoot k api h).1 arguments)
    = Some (k :: registry (api, h)).
Proof.
  split; [reflexivity | split; [reflexivity | split]].
  - eexists. repeat split.
  - simpl. by rewrite read_write_array.
Qed.

(** The root object is reached through the dispatcher with any key whose
    [identifier] field is ["ROOT"]. *)
Lemma get_root (api : ObjectAPI.t) (h : heap) (key : value) (rest : list value) :
  get_field h key "identifier" = Normal (VStr "ROOT") →
  get api h (key :: rest) = rootProvider_get api (key :: rest) ∧
  composition_of h (get api h (key :: rest)) = Some (registry (api, h)).
Proof.
  intros Hid. pose proof (getProvider_root api h key Hid) as Hroot.
  assert (get api h (key :: rest) = rootProvider_get api (key :: rest)) as ->.
  { by apply (dispatch_forward MGet api h (key :: rest) (Provider rootProvider)). }
  done.
Qed.

(** C8 at a failing input. [addProvider("__proto__", p)] registers
    nothing under that name: the assignment replaces the prototype of
    [this.providers]. Other namespaces change with it: nothing is registered
    for ["get"], and a key of that namespace, for which no provider matched
    before, now resolves to the [get] function of [p]. *)
Lemma addProvider_proto_changes_other_namespaces :
  providers (addProvider (VStr "__proto__") (External full) plain_api)
    = providers plain_api ∧
  providers plain_api !! "get" = None ∧
  get_field plain_heap (VObj 1) "namespace" = Normal (VStr "get") ∧
  getProvider plain_api plain_heap (VObj 1) = Normal None ∧
  getProvider (addProvider (VStr "__proto__") (External full) plain_api)
      plain_heap (VObj 1) = Normal (Some (MethodOf (External full) MGet)) ∧
  get plain_api plain_heap [VObj 1] = Throw (Error "No Provider Matched") ∧
  get (addProvider (VStr "__proto__") (External full) plain_api)
      plain_heap [VObj 1] = Throw (Error "Provider does not support [get].").
Proof. repeat split; reflexivity. Qed.

Section addProvider.
Implicit Types (api : ObjectAPI.t) (p : provider) (namespace : value).
Implicit Types (k : string).

(** The assignment as an update of the own properties. *)
Lemma addProvider_own namespace p api :
  to_property_key namespace ≠ "__proto__" →
  addProvider namespace p api
    = Build (<[to_property_key namespace := p]> (providers api))
            (providers_proto api) (rootRegistry api) (fallbackProvider api).
Proof.
  intros Hne. unfold addProvider.
  destruct (providers api !! to_property_key namespace); [done |].
  by rewrite bool_decide_eq_false_2.
Qed.

Lemma addProvider_proto namespace p api :
  to_property_key namespace = "__proto__" →
  providers api !! "__proto__" = None →
  addProvider namespace p api
    = Build (providers api) (Some p) (rootRegistry api) (fallbackProvider api).
Proof.
  intros Hk Hown. unfold addProvider. rewrite Hk, Hown.
  by rewrite bool_decide_eq_true_2.
Qed.

Lemma addProvider_fields namespace p api :
  rootRegistry (addProvider namespace p api) = rootRegistry api ∧
  fallbackProvider (addProvider namespace p api) = fallbackProvider api.
Proof.
  unfold addProvider.
  destruct (providers api !! to_property_key namespace); [done |].
  by case_bool_decide.
Qed.
End addProvider.

(** X18. For a namespace other than [__proto__], [addProvider] makes the
    provider the one registered under the namespace, whatever was
    registered there before, and changes nothing else: what is read under
    any other name, the prototype, the fallback provider and the root
    registry are as before, and a key of that namespace that is not the
    root sentinel resolves to the new provider. For [__proto__] it makes no
    own property and replaces the prototype; keys of that namespace then
    resolve to the provider as well. *)
Theorem addProvider_frame (namespace : value) (p : provider) (api : ObjectAPI.t) :
  fallbackProvider (addProvider namespace p api) = fallbackProvider api ∧
  rootRegistry (addProvider namespace p api) = rootRegistry api ∧
  (∀ h, registry (addProvider namespace p api, h) = registry (api, h)) ∧
  (to_property_key namespace ≠ "__proto__" →
     providers (addProvider namespace p api) !! to_property_key namespace
       = Some p ∧
     providers_proto (addProvider namespace p api) = providers_proto api ∧
     (∀ other : string, other ≠ to_property_key namespace →
        providers (addProvider namespace p api) !! other
          = providers api !! other ∧
        lookup_property (addProvider namespace p api) other
          = lookup_property api other)) ∧
  (to_property_key namespace = "__proto__" →
     providers api !! "__proto__" = None →
     providers (addProvider namespace p api) = providers api ∧
     providers_proto (addProvider namespace p api) = Some p) ∧
  (∀ h key id ns,
     get_field h key "identifier" = Normal id → id ≠ VStr "ROOT" →
     get_field h key "namespace" = Normal ns →
     to_property_key ns = to_property_key namespace →
     getProvider (addProvider namespace p api) h key
       = Normal (Some (Provider p))).
Proof.
  destruct (addProvider_fields namespace p api) as [Hroot Hfall].
  split; [exact Hfall | split; [exact Hroot | split; [| split; [| split]]]].
  - intros h. unfold registry. simpl. by rewrite Hroot.
  - intros Hne. rewrite (addProvider_own _ _ _ Hne). simpl.
    split; [apply lookup_insert_eq | split; [done |]].
    intros other Hother. unfold lookup_property. simpl.
    by rewrite lookup_insert_ne.
  - intros Hk Hown. by rewrite (addProvider_proto _ _ _ Hk Hown).
  - intros h key id ns Hid Hne Hns Hsame.
    rewrite (getProvider_namespace _ _ _ _ _ Hid Hne Hns), Hsame.
    assert (lookup_property (addProvider namespace p api)
              (to_property_key namespace) = Some (Provider p)) as ->; [| done].
    unfold addProvider, lookup_property.
    destruct (providers api !! to_property_key namespace) eqn:Hown.
    + simpl. by rewrite lookup_insert_eq.
    + case_bool_decide as Hk; simpl.
      * rewrite Hown. by rewrite ?bool_decide_eq_true_2.
      * by rewrite lookup_insert_eq.
Qed.

Lemma addProvider_frame_witness :
  providers (api_with get_only) !! "n" = Some (External get_only) ∧
  providers (addProvider (VStr "n") (External full) (api_with get_only)) !! "n"
    = Some (External full) ∧
  providers (addProvider (VStr "m") (External full) (api_with get_only)) !! "n"
    = Some (External get_only) ∧
  providers_proto (addProvider (VStr "__proto__") (External full) plain_api)
    = Some (External full) ∧
  getProvider (addProvider (VStr "n") (External full) (api_with get_only))
      fresh_heap (VObj 0) = Normal (Some (Provider (External full))).
Proof.
  split; [reflexivity |].
  destruct (addProvider_frame (VStr "n") (External full) (api_with get_only))
    as (_ & _ & _ & Hown & _ & Hresolve).
  destruct (addProvider_frame (VStr "m") (External full) (api_with get_only))
    as (_ & _ & _ & Hother & _).
  destruct (addProvider_frame (VStr "__proto__") (External full) plain_api)
    as (_ & _ & _ & _ & Hproto & _).
  split; [apply Hown; discriminate | split; [| split]].
  - destruct Hother as (_ & _ & Hrest); [discriminate |].
    destruct (Hrest "n") as [-> _]; [discriminate | reflexivity].
  - apply Hproto; reflexivity.
  - apply (Hresolve fresh_heap (VObj 0) VUndefined (VStr "n"));
      [reflexivity | discriminate | reflexivity | reflexivity].
Defined.

Section removeRoot.
Implicit Types (api : ObjectAPI.t) (h : heap) (key k : value).
Implicit Types (elems : list value).

Lemma get_field_defined h v f :
  defined v → get_field h v f = Normal (field h v f).
Proof. intros [Hu Hn]. unfold field. by destruct v. Qed.

Lemma removeRoot_keep_defined h key k :
  defined key → defined k →
  removeRoot_keep h key k = Normal (bool_decide (¬ same_root h key k)).
Proof.
  intros Hkey Hk. unfold removeRoot_keep.
  rewrite !(get_field_defined h k), !(get_field_defined h key) by done.
  rewrite !bind_Normal. unfold same_root.
  destruct (strict_eq (field h k "identifier") (field h key "identifier"))
    eqn:Hi; simpl.
  - apply strict_eq_spec in Hi.
    destruct (strict_eq (field h k "namespace") (field h key "namespace"))
      eqn:Hn; simpl; f_equal; symmetry.
    + apply strict_eq_spec in Hn. apply bool_decide_eq_false. tauto.
    + apply strict_eq_false in Hn. apply bool_decide_eq_true. tauto.
  - apply strict_eq_false in Hi. f_equal; symmetry.
    apply bool_decide_eq_true. tauto.
Qed.

Lemma filter_array_defined h key elems :
  defined key → Forall defined elems →
  filter_array (removeRoot_keep h key) elems
    = Normal (filter (λ k, ¬ same_root h key k) elems).
Proof.
  intros Hkey. induction 1 as [| k elems Hk _ IH]; [done |].
  simpl. rewrite (removeRoot_keep_defined h key k Hkey Hk), bind_Normal.
  rewrite IH, bind_Normal.
  destruct (decide (¬ same_root h key k)) as [Hkeep | Hdrop].
  - by rewrite bool_decide_eq_true_2, filter_cons_True.
  - by rewrite bool_decide_eq_false_2, filter_cons_False.
Qed.

(** [removeRoot] on a registry of objects: the new registry is a new
    array that holds, in order, the entries that differ from the argument
    in the [identifier] field or in the [namespace] field. *)
Lemma removeRoot_defined key api h :
  defined key → Forall defined (registry (api, h)) →
  ∃ s, removeRoot key api h = Normal s ∧
       registry s = filter (λ k, ¬ same_root h key k) (registry (api, h)) ∧
       providers s.1 = providers api ∧
       fallbackProvider s.1 = fallbackProvider api ∧
       objects s.2 = objects h.
Proof.
  intros Hkey Hall. unfold removeRoot, registry in *. simpl in *.
  rewrite (filter_array_defined h key _ Hkey Hall), bind_Normal.
  eexists. split; [reflexivity |]. simpl.
  by rewrite read_write_array.
Qed.

(** An empty registry is left empty whatever the argument is: the
    callback does not run. *)
Lemma removeRoot_empty key api h :
  registry (api, h) = [] →
  ∃ s, removeRoot key api h = Normal s ∧ registry s = [].
Proof.
  unfold removeRoot, registry. simpl. intros ->. simpl.
  eexists. split; [reflexivity |]. simpl. by rewrite read_write_array.
Qed.

(** A new API has no provider, no fallback and an empty registry. *)
Lemma new_empty h :
  providers (new h).1 = ∅ ∧ fallbackProvider (new h).1 = None ∧
  registry (new h) = [].
Proof.
  split; [done | split; [done |]].
  unfold registry, new. simpl. by rewrite read_write_array.
Qed.

Lemma addRoot_registry key api h :
  registry (addRoot key api h) = key :: registry (api, h).
Proof. unfold registry, addRoot. simpl. by rewrite read_write_array. Qed.

Lemma field_write_array h l elems v f :
  field (write_array h l elems) v f = field h v f.
Proof. unfold field. by rewrite get_field_write_array. Qed.

Lemma same_root_refl h key : same_root h key key.
Proof. by split. Qed.

Lemma same_root_addRoot key' api h key k :
  same_root (addRoot key' api h).2 key k ↔ same_root h key k.
Proof. unfold same_root, addRoot. simpl. by rewrite !field_write_array. Qed.

Lemma registry_eta (s : ObjectAPI.t * heap) : registry (s.1, s.2) = registry s.
Proof. by destruct s. Qed.
End removeRoot.

Section identifiers.
Implicit Types (api : ObjectAPI.t) (h : heap) (key k : value).




End identifiers.


(** C7 at a failing input. [a] is [{ namespace: "n", key: "x" }] and [b]
    is [{ namespace: "n", key: "y" }]. After [addRoot(a)] and [addRoot(b)]
    the root object's composition reads [[b; a]]; [removeRoot(a)] then
    leaves it empty instead of [[b]], because [b] has the namespace of [a]
    and the callback does not compare the keys. *)
Lemma addRoot_addRoot_removeRoot_same_namespace :
  field (roots_of [VObj 1; VObj 0]).2 (VObj 0) "key" = VStr "x" ∧
  field (roots_of [VObj 1; VObj 0]).2 (VObj 1) "key" = VStr "y" ∧
  composition_of (roots_of [VObj 1; VObj 0]).2
      (get (roots_of [VObj 1; VObj 0]).1 (roots_of [VObj 1; VObj 0]).2 [VObj 2])
    = Some [VObj 1; VObj 0] ∧
  ∃ s, removeRoot (VObj 0) (roots_of [VObj 1; VObj 0]).1
                  (roots_of [VObj 1; VObj 0]).2 = Normal s ∧
       composition_of s.2 (get s.1 s.2 [VObj 2]) = Some [] ∧
       composition_of s.2 (get s.1 s.2 [VObj 2]) ≠ Some [VObj 1].
Proof.
  do 3 (split; [reflexivity |]).
  eexists. split; [reflexivity |]. split; [reflexivity |].
  vm_compute. discriminate.
Qed.


(** C4 at a failing input. The registry holds [{ namespace: "n", key: "y" }]
    and [{ namespace: "n", key: "x" }]; [removeRoot] of the second one
    empties the registry, because the entry with the key ["y"] has the
    same namespace and the callback does not look at [key]. *)
Lemma removeRoot_drops_other_key_of_namespace :
  registry (roots_of [VObj 1; VObj 0]) = [VObj 1; VObj 0] ∧
  field (roots_of [VObj 1; VObj 0]).2 (VObj 0) "namespace" = VStr "n" ∧
  field (roots_of [VObj 1; VObj 0]).2 (VObj 0) "key" = VStr "x" ∧
  field (roots_of [VObj 1; VObj 0]).2 (VObj 1) "namespace" = VStr "n" ∧
  field (roots_of [VObj 1; VObj 0]).2 (VObj 1) "key" = VStr "y" ∧
  ∃ s, removeRoot (VObj 0) (roots_of [VObj 1; VObj 0]).1
                  (roots_of [VObj 1; VObj 0]).2 = Normal s ∧
       registry s = [].
Proof.
  do 5 (split; [reflexivity |]).
  eexists. split; reflexivity.
Qed.

Section registry.
Implicit Types (api : ObjectAPI.t) (h : heap) (key k a : value).

(** What does hold of [removeRoot]: entries that differ from the argument
    in [identifier] or [namespace] stay, in order. *)
Lemma removeRoot_no_match key api h :
  defined key → Forall defined (registry (api, h)) →
  Forall (λ k, ¬ same_root h key k) (registry (api, h)) →
  ∃ s, removeRoot key api h = Normal s ∧ registry s = registry (api, h).
Proof.
  intros Hkey Hall Hno.
  destruct (removeRoot_defined key api h Hkey Hall) as (s & Hs & Hreg & _).
  exists s. split; [exact Hs |]. rewrite Hreg.
  clear Hreg Hs Hall. induction Hno as [| k l Hk _ IH]; [done |].
  by rewrite filter_cons_True, IH.
Qed.

(** Every occurrence of the argument itself goes. *)
Lemma addRoot_twice_removeRoot a api h :
  registry (api, h) = [] → defined a →
  ∃ s, removeRoot a (addRoot a (addRoot a api h).1 (addRoot a api h).2).1
                    (addRoot a (addRoot a api h).1 (addRoot a api h).2).2
         = Normal s ∧
       registry s = [].
Proof.
  intros Hempty Ha.
  set (s2 := addRoot a (addRoot a api h).1 (addRoot a api h).2).
  assert (registry s2 = [a; a]) as Hreg2.
  { unfold s2. by rewrite addRoot_registry, registry_eta, addRoot_registry, Hempty. }
  destruct (removeRoot_defined a s2.1 s2.2) as (s & Hs & Hreg & _); [done | |].
  { rewrite registry_eta, Hreg2. by rewrite !Forall_cons, Forall_nil. }
  exists s. split; [exact Hs |]. rewrite Hreg, registry_eta, Hreg2.
  rewrite !filter_cons_False; [done | |];
    intros Hnot; apply Hnot, same_root_refl.
Qed.

(** [addRoot] updates the array in place: a root object that was fetched
    before sees the new key. *)
Lemma root_object_sees_addRoot api h k arguments :
  composition_of (addRoot k api h).2 (rootProvider_get api arguments)
    = Some (k :: registry (api, h)).
Proof. simpl. by rewrite read_write_array. Qed.

(** [removeRoot] replaces the array: a root object that was fetched
    before still reads the old one. *)
Lemma root_object_misses_removeRoot api h key s arguments :
  is_Some (arrays h !! rootRegistry api) →
  removeRoot key api h = Normal s →
  composition_of s.2 (rootProvider_get api arguments)
    = Some (registry (api, h)).
Proof.
  intros Halloc. unfold removeRoot.
  destruct (filter_array _ _) as [kept |]; [| done].
  rewrite bind_Normal. simpl. intros [= <-]. simpl. f_equal.
  apply read_write_array_ne. intros Heq.
  pose proof (alloc_array_fresh h kept) as Hfresh. simpl in Hfresh.
  rewrite Heq in Hfresh. rewrite Hfresh in Halloc. by destruct Halloc.
Qed.
End registry.

(** * Further properties of the code *)

Section routing.
Implicit Types (api : ObjectAPI.t) (h : heap) (key id ns : value).
Implicit Types (m : method_name) (arguments rest : list value).

Lemma nullish_defined v : nullish v ↔ ¬ defined v.
Proof. unfold nullish, defined. destruct v; intuition congruence. Qed.

Lemma get_field_nullish h v f : nullish v → get_field h v f = Throw TypeError.
Proof. by intros [-> | ->]. Qed.

Lemma get_field_throws h v f e :
  get_field h v f = Throw e → e = TypeError ∧ nullish v.
Proof.
  unfold nullish. destruct v; simpl; intros H; simplify_eq; split; auto.
Qed.

Lemma getProvider_nullish api h key :
  nullish key → getProvider api h key = Throw TypeError.
Proof. by intros [-> | ->]. Qed.

Lemma getProvider_defined api h key :
  defined key → ∃ p, getProvider api h key = Normal p.
Proof.
  intros Hd. unfold getProvider.
  rewrite !(get_field_defined h key) by done. rewrite bind_Normal.
  destruct (strict_eq _ _); eauto.
Qed.
End routing.

(** X1. The fallback provider is consulted only when the read of
    [this.providers] under the namespace finds nothing: installing one
    leaves the registered providers, the prototype and the registry as they
    are, does not change what a root-sentinel key resolves to, nor a key
    under whose namespace a provider is registered or a property is
    inherited, and makes every other key resolve to it; a later call
    replaces the earlier fallback. *)
Theorem setFallbackProvider_resolution (f : option provider) (api : ObjectAPI.t)
    (h : heap) (key id ns : value) :
  get_field h key "identifier" = Normal id →
  get_field h key "namespace" = Normal ns →
  providers (_supersecretSetFallbackProvider f api) = providers api ∧
  providers_proto (_supersecretSetFallbackProvider f api) = providers_proto api ∧
  rootRegistry (_supersecretSetFallbackProvider f api) = rootRegistry api ∧
  (id = VStr "ROOT" ∨ is_Some (providers api !! to_property_key ns) ∨
   is_Some (lookup_property api (to_property_key ns)) →
     getProvider (_supersecretSetFallbackProvider f api) h key
       = getProvider api h key) ∧
  (id ≠ VStr "ROOT" → lookup_property api (to_property_key ns) = None →
     getProvider (_supersecretSetFallbackProvider f api) h key
       = Normal (Provider <$> f)) ∧
  (∀ g, _supersecretSetFallbackProvider g (_supersecretSetFallbackProvider f api)
          = _supersecretSetFallbackProvider g api).
Proof.
  intros Hid Hns.
  split; [done | split; [done | split; [done | split; [| split; [| done]]]]].
  - destruct (decide (id = VStr "ROOT")) as [-> | Hne].
    + intros _. by rewrite !getProvider_root.
    + intros Hfound.
      assert (is_Some (lookup_property api (to_property_key ns))) as [r Hr].
      { destruct Hfound as [Hroot | [[p Hp] | Hr]]; [done | | done].
        rewrite (lookup_property_own _ _ _ Hp). by eexists. }
      rewrite !(getProvider_namespace _ _ _ _ _ Hid Hne Hns).
      change (lookup_property (_supersecretSetFallbackProvider f api))
        with (lookup_property api).
      by rewrite Hr.
  - intros Hne Hr. rewrite (getProvider_namespace _ _ _ _ _ Hid Hne Hns).
    change (lookup_property (_supersecretSetFallbackProvider f api))
      with (lookup_property api).
    by rewrite Hr.
Qed.

Lemma setFallbackProvider_resolution_witness :
  getProvider (_supersecretSetFallbackProvider (Some (External full))
                 (api_with get_only)) fresh_heap (VObj 0)
    = Normal (Some (Provider (External get_only))) ∧
  getProvider (_supersecretSetFallbackProvider (Some (External full))
                 (api_with get_only)) fresh_heap (VObj 4)
    = Normal (Some (Provider (External full))).
Proof.
  destruct (setFallbackProvider_resolution (Some (External full))
              (api_with get_only) fresh_heap (VObj 0) VUndefined (VStr "n"))
    as (_ & _ & _ & Hkeep & _); [reflexivity | reflexivity |].
  destruct (setFallbackProvider_resolution (Some (External full))
              (api_with get_only) fresh_heap (VObj 4) VUndefined (VStr "m"))
    as (_ & _ & _ & _ & Hfall & _); [reflexivity | reflexivity |].
  split.
  - rewrite Hkeep; [reflexivity | right; left; eexists; reflexivity].
  - apply Hfall; [discriminate | reflexivity].
Defined.

(** X2. Called with no argument, or with [undefined] or [null] as the first
    one, each of [get], [save] and [delete] throws the [TypeError] of the
    property read in [getProvider], whatever is registered and whatever the
    fallback is: the ["No Provider Matched"] error is not reached. *)
Theorem dispatch_without_key (m : method_name) (api : ObjectAPI.t) (h : heap)
    (rest : list value) :
  dispatch m api h [] = Throw TypeError ∧
  dispatch m api h (VUndefined :: rest) = Throw TypeError ∧
  dispatch m api h (VNull :: rest) = Throw TypeError.
Proof. done. Qed.

(** X3. A key without a [namespace] field, which a string or a boolean
    passed as the key is, and which a domain object of the documented shape
    is too, is looked up under the property key ["undefined"]: it resolves
    to the provider registered under that name when there is one, and to
    the fallback otherwise. *)
Theorem getProvider_without_namespace (api : ObjectAPI.t) (h : heap) :
  (∀ s, getProvider api h (VStr s)
          = Normal (or_else (Provider <$> providers api !! "undefined")
                            (Provider <$> fallbackProvider api))) ∧
  (∀ b, getProvider api h (VBool b)
          = Normal (or_else (Provider <$> providers api !! "undefined")
                            (Provider <$> fallbackProvider api))) ∧
  (∀ key id,
     get_field h key "identifier" = Normal id → id ≠ VStr "ROOT" →
     get_field h key "namespace" = Normal VUndefined →
     getProvider api h key
       = Normal (or_else (Provider <$> providers api !! "undefined")
                         (Provider <$> fallbackProvider api)) ∧
     ∀ p, getProvider (addProvider VUndefined p api) h key
            = Normal (Some (Provider p))).
Proof.
  assert (∀ key id,
            get_field h key "identifier" = Normal id → id ≠ VStr "ROOT" →
            get_field h key "namespace" = Normal VUndefined →
            getProvider api h key
              = Normal (or_else (Provider <$> providers api !! "undefined")
                                (Provider <$> fallbackProvider api))) as Hkey.
  { intros key id Hid Hne Hns.
    rewrite (getProvider_namespace _ _ _ _ _ Hid Hne Hns). simpl.
    by rewrite lookup_property_undefined. }
  split; [| split].
  - intros s. by apply (Hkey (VStr s) VUndefined).
  - intros b. by apply (Hkey (VBool b) VUndefined).
  - intros key id Hid Hne Hns. split; [by apply (Hkey key id) |].
    intros p. rewrite (getProvider_namespace _ _ _ _ _ Hid Hne Hns). simpl.
    rewrite lookup_property_undefined.
    rewrite (addProvider_own VUndefined p api) by done. simpl.
    by rewrite lookup_insert_eq.
Qed.

Lemma getProvider_without_namespace_witness :
  getProvider (addProvider VUndefined (External full) (api_with get_only))
      fresh_heap (VObj 3) = Normal (Some (Provider (External full))).
Proof.
  destruct (getProvider_without_namespace (api_with get_only) fresh_heap)
    as (_ & _ & Hobj).
  destruct (Hobj (VObj 3) (VObj 0)) as [_ Hreg];
    [reflexivity | discriminate | reflexivity |].
  apply Hreg.
Defined.

(** X4. The dispatcher adds three errors of its own and nothing else: a
    call that throws either threw the [TypeError] of a missing key, one of
    the two dispatcher errors, or whatever the method of the resolved
    provider threw; a call that returns, returns what that method returned
    on the same arguments. *)
Theorem dispatch_outcomes (m : method_name) (api : ObjectAPI.t) (h : heap)
    (arguments : list value) :
  (∀ e, dispatch m api h arguments = Throw e →
     (e = TypeError ∧ nullish (nth 0 arguments VUndefined)) ∨
     (e = Error "No Provider Matched" ∧
      getProvider api h (nth 0 arguments VUndefined) = Normal None) ∨
     (e = Error ("Provider does not support [" +:+ method_string m +:+ "].") ∧
      ∃ p, getProvider api h (nth 0 arguments VUndefined) = Normal (Some p) ∧
           lookup_method api p m = None) ∨
     (∃ p f, getProvider api h (nth 0 arguments VUndefined) = Normal (Some p) ∧
             lookup_method api p m = Some f ∧ f arguments = Throw e)) ∧
  (∀ r, dispatch m api h arguments = Normal r →
     ∃ p f, getProvider api h (nth 0 arguments VUndefined) = Normal (Some p) ∧
            lookup_method api p m = Some f ∧ f arguments = Normal r).
Proof.
  unfold dispatch.
  destruct (decide (nullish (nth 0 arguments VUndefined))) as [Hn | Hd].
  - rewrite (getProvider_nullish api h _ Hn). split.
    + intros e [= <-]. by left.
    + intros r Hr. discriminate Hr.
  - apply (not_iff_compat (nullish_defined _)) in Hd.
    apply dec_stable in Hd.
    destruct (getProvider_defined api h _ Hd) as [[p |] ->]; rewrite bind_Normal.
    + destruct (lookup_method api p m) as [f |] eqn:Hf.
      * split; [intros e He; do 3 right | intros r Hr]; eauto.
      * split; [intros e [= <-]; right; right; left; eauto |].
        intros r Hr. discriminate Hr.
    + split; [intros e [= <-]; right; left; eauto |].
      intros r Hr. discriminate Hr.
Qed.

Lemma dispatch_outcomes_witness :
  ∃ p f, getProvider (api_with full) fresh_heap (VObj 0) = Normal (Some p) ∧
         lookup_method (api_with full) p MGet = Some f ∧
         f [VObj 0] = Normal (RetPromise (Resolved (VObj 0))).
Proof.
  destruct (dispatch_outcomes MGet (api_with full) fresh_heap [VObj 0])
    as [_ Hreturns].
  apply (Hreturns (RetPromise (Resolved (VObj 0)))). reflexivity.
Defined.

(** X5. A provider registered for the namespace shadows the fallback for
    every method: when it lacks the requested one the call throws the
    unsupported-operation error, whatever fallback is installed, also one
    that has the method. *)
Theorem no_fall_through_to_fallback (m : method_name) (api : ObjectAPI.t)
    (h : heap) (key id ns : value) (rest : list value) (p : provider)
    (f : option provider) :
  get_field h key "identifier" = Normal id →
  id ≠ VStr "ROOT" →
  get_field h key "namespace" = Normal ns →
  providers api !! to_property_key ns = Some p →
  lookup_method api (Provider p) m = None →
  dispatch m (_supersecretSetFallbackProvider f api) h (key :: rest)
    = Throw (Error ("Provider does not support [" +:+ method_string m +:+ "].")).
Proof.
  intros Hid Hne Hns Hp Hm.
  apply (dispatch_unsupported m _ h (key :: rest) (Provider p)).
  - simpl. rewrite (getProvider_namespace _ _ _ _ _ Hid Hne Hns).
    by rewrite (lookup_property_own (_supersecretSetFallbackProvider f api)
                  _ p Hp).
  - by destruct p.
Qed.

Lemma no_fall_through_to_fallback_witness :
  lookup_method fresh_api (Provider (External full)) MSave = Some echo ∧
  save (_supersecretSetFallbackProvider (Some (External full))
          (api_with get_only)) fresh_heap [VObj 0]
    = Throw (Error "Provider does not support [save].").
Proof.
  split; [reflexivity |].
  apply (no_fall_through_to_fallback MSave (api_with get_only) fresh_heap
           (VObj 0) VUndefined (VStr "n") [] (External get_only));
    [reflexivity | discriminate | reflexivity | reflexivity | reflexivity].
Defined.

(** X6. Registrations compose as assignments to properties: under the same
    property key the later provider wins, under different keys the order
    of two registrations does not matter. The namespace is turned into a
    property key first, so [undefined] and the string ["undefined"] (and so
    on for [null], [true], [false]) name the same registration. *)
Theorem addProvider_compose (n1 n2 : value) (p q : provider) (api : ObjectAPI.t) :
  (to_property_key n1 = to_property_key n2 →
     addProvider n2 q (addProvider n1 p api) = addProvider n2 q api) ∧
  (to_property_key n1 ≠ to_property_key n2 →
     addProvider n2 q (addProvider n1 p api)
       = addProvider n1 p (addProvider n2 q api)) ∧
  addProvider (VStr "undefined") q (addProvider VUndefined p api)
    = addProvider VUndefined q api.
Proof.
  assert (∀ a b : value, to_property_key a = to_property_key b →
            addProvider b q (addProvider a p api) = addProvider b q api)
    as Hsame.
  { intros a b Hk. unfold addProvider. rewrite Hk.
    destruct (providers api !! to_property_key b) eqn:Hown; simpl.
    - by rewrite lookup_insert_eq, insert_insert_eq.
    - case_bool_decide; simpl.
      + by rewrite Hown.
      + by rewrite lookup_insert_eq, insert_insert_eq. }
  split; [apply Hsame | split;
    [| exact (Hsame VUndefined (VStr "undefined") eq_refl)]].
  intros Hne. unfold addProvider.
  destruct (providers api !! to_property_key n1) eqn:H1,
           (providers api !! to_property_key n2) eqn:H2;
    repeat (case_bool_decide; simpl);
    rewrite ?lookup_insert_ne by done; rewrite ?H1, ?H2; simpl;
    rewrite ?bool_decide_eq_true_2, ?bool_decide_eq_false_2 by done;
    try congruence; f_equal; by apply insert_insert_ne.
Qed.

Lemma addProvider_compose_witness :
  addProvider VNull (External full) (addProvider (VStr "null") rootProvider fresh_api)
    = addProvider VNull (External full) fresh_api ∧
  addProvider (VStr "m") (External full) (addProvider (VStr "n") rootProvider fresh_api)
    = addProvider (VStr "n") rootProvider (addProvider (VStr "m") (External full) fresh_api).
Proof.
  split.
  - apply (addProvider_compose (VStr "null") VNull). reflexivity.
  - apply (addProvider_compose (VStr "n") (VStr "m")). discriminate.
Defined.

Section registry_errors.
Implicit Types (api : ObjectAPI.t) (h : heap) (key k : value).
Implicit Types (elems : list value) (s : ObjectAPI.t * heap).

Lemma field_objects h h' v f :
  objects h' = objects h → field h' v f = field h v f.
Proof. intros Hobj. unfold field. destruct v; simpl; by rewrite ?Hobj. Qed.

Lemma same_root_objects h h' key k :
  objects h' = objects h → same_root h' key k ↔ same_root h key k.
Proof.
  intros Hobj. unfold same_root. by rewrite !(field_objects h h' _ _ Hobj).
Qed.

Lemma removeRoot_keep_nullish h key k :
  nullish k ∨ nullish key → removeRoot_keep h key k = Throw TypeError.
Proof.
  unfold removeRoot_keep. intros [[-> | ->] | [-> | ->]]; try done;
    by destruct k.
Qed.

Lemma filter_array_throws h key elems :
  elems ≠ [] → nullish key ∨ Exists nullish elems →
  filter_array (removeRoot_keep h key) elems = Throw TypeError.
Proof.
  induction elems as [| k elems IH]; [done |]. intros _ Hbad. simpl.
  destruct (decide (nullish k ∨ nullish key)) as [Hthrow | Hok].
  { by rewrite (removeRoot_keep_nullish h key k Hthrow). }
  assert (defined k ∧ defined key) as [Hk Hkey].
  { split; apply dec_stable; rewrite <- nullish_defined; tauto. }
  rewrite (removeRoot_keep_defined h key k Hkey Hk), bind_Normal.
  rewrite IH; [done | |].
  - intros ->. destruct Hbad as [Hbad | Hbad]; [tauto |].
    apply Exists_cons in Hbad as [Hbad | Hbad]; [tauto |].
    by apply Exists_nil in Hbad.
  - destruct Hbad as [Hbad | Hbad]; [tauto |].
    apply Exists_cons in Hbad as [Hbad | Hbad]; [tauto | by right].
Qed.

Lemma removeRoot_throws key api h :
  registry (api, h) ≠ [] →
  nullish key ∨ Exists nullish (registry (api, h)) →
  removeRoot key api h = Throw TypeError.
Proof.
  intros Hne Hbad. unfold removeRoot.
  unfold registry in Hne, Hbad. simpl in Hne, Hbad.
  by rewrite (filter_array_throws h key _ Hne Hbad).
Qed.

Lemma add_roots_registry keys s :
  registry (add_roots keys s) = (rev keys ++ registry s)%list.
Proof.
  revert s. induction keys as [| k keys IH]; intros s; [done |].
  simpl. rewrite IH, addRoot_registry, registry_eta.
  by rewrite <- app_assoc.
Qed.

Lemma add_roots_frame keys s :
  (add_roots keys s).1 = s.1 ∧ objects (add_roots keys s).2 = objects s.2.
Proof.
  revert s. induction keys as [| k keys IH]; intros s; [done |].
  simpl. destruct (IH (addRoot k s.1 s.2)) as [-> ->]. done.
Qed.
End registry_errors.

(** X7. [addRoot] puts each key in front of the earlier ones and checks
    nothing: after the keys of a list were added in turn the registry is the
    list reversed, duplicates and [undefined] included, followed by what
    was there before; the providers, the fallback and the reference of the
    registry array are as before. *)
Theorem addRoot_sequence (keys : list value) (s : ObjectAPI.t * heap) :
  registry (add_roots keys s) = (rev keys ++ registry s)%list ∧
  (add_roots keys s).1 = s.1 ∧
  composition_of (add_roots keys s).2
      (rootProvider_get (add_roots keys s).1 [])
    = Some (rev keys ++ registry s)%list.
Proof.
  pose proof (add_roots_registry keys s) as Hreg.
  split; [exact Hreg | split; [apply add_roots_frame |]].
  simpl. f_equal. exact Hreg.
Qed.

(** X8. [removeRoot] throws exactly when the registry is not empty and the
    argument or one of the registered roots is [undefined] or [null], and
    what it throws then is the [TypeError] of the property read; on an
    empty registry it returns for every argument. *)
Theorem removeRoot_throws_iff (key : value) (api : ObjectAPI.t) (h : heap) :
  (removeRoot key api h = Throw TypeError ↔
     registry (api, h) ≠ [] ∧
     (nullish key ∨ Exists nullish (registry (api, h)))) ∧
  (∀ e, removeRoot key api h = Throw e → e = TypeError).
Proof.
  assert (registry (api, h) ≠ [] ∧
          (nullish key ∨ Exists nullish (registry (api, h))) →
          removeRoot key api h = Throw TypeError) as Hthrows.
  { intros [Hne Hbad]. by apply removeRoot_throws. }
  assert (¬ (registry (api, h) ≠ [] ∧
             (nullish key ∨ Exists nullish (registry (api, h)))) →
          ∃ s, removeRoot key api h = Normal s) as Hreturns.
  { intros Hgood.
    destruct (decide (registry (api, h) = [])) as [Hempty | Hne].
    { destruct (removeRoot_empty key api h Hempty) as (s & Hs & _). eauto. }
    destruct (removeRoot_defined key api h) as (s & Hs & _); [| | eauto].
    - apply dec_stable. rewrite <- nullish_defined. tauto.
    - apply Forall_forall. intros k Hk. apply dec_stable.
      rewrite <- nullish_defined. intros Hnull. apply Hgood.
      split; [done |]. right. apply Exists_exists. eauto. }
  destruct (decide (registry (api, h) ≠ [] ∧
                    (nullish key ∨ Exists nullish (registry (api, h)))))
    as [Hbad | Hgood].
  - rewrite (Hthrows Hbad). split; [tauto |]. by intros e [= <-].
  - destruct (Hreturns Hgood) as [s Hs]. rewrite Hs. split; [| done].
    split; [done | tauto].
Qed.

Lemma removeRoot_throws_iff_witness :
  registry (roots_of [VObj 0]) ≠ [] ∧
  removeRoot VNull (roots_of [VObj 0]).1 (roots_of [VObj 0]).2 = Throw TypeError.
Proof.
  assert (registry (roots_of [VObj 0]) ≠ []) as Hne by discriminate.
  split; [exact Hne |].
  destruct (removeRoot_throws_iff VNull (roots_of [VObj 0]).1
              (roots_of [VObj 0]).2) as [[_ Hthrows] _].
  apply Hthrows. split; [exact Hne | left; by right].
Defined.

(** X9. Once [undefined] or [null] was added as a root, every later
    [removeRoot] throws, whatever its argument is and whatever was added in
    between: no root can be removed any more. *)
Theorem removeRoot_after_nullish_root (k key : value) (later : list value)
    (s : ObjectAPI.t * heap) :
  nullish k →
  removeRoot key (add_roots (k :: later) s).1 (add_roots (k :: later) s).2
    = Throw TypeError.
Proof.
  intros Hk. apply removeRoot_throws; rewrite registry_eta, add_roots_registry.
  - simpl. intros Hnil. apply app_eq_nil in Hnil as [Hnil _].
    by apply app_eq_nil in Hnil as [_ Hnil].
  - right. simpl. rewrite !Exists_app, Exists_cons. tauto.
Qed.

Lemma removeRoot_after_nullish_root_witness :
  removeRoot (VObj 0) (add_roots [VUndefined; VObj 1] (roots_of [VObj 0])).1
             (add_roots [VUndefined; VObj 1] (roots_of [VObj 0])).2
    = Throw TypeError.
Proof.
  apply (removeRoot_after_nullish_root VUndefined (VObj 0) [VObj 1]
           (roots_of [VObj 0])).
  by left.
Defined.

Section registry_composition.
Implicit Types (api : ObjectAPI.t) (h : heap) (key k a b : value).
Implicit Types (s : ObjectAPI.t * heap).

(** What a returning [removeRoot] leaves: the filtered registry in a new
    array, and everything else as it was. *)
Lemma removeRoot_Normal key api h s :
  removeRoot key api h = Normal s →
  registry s = filter (λ k, ¬ same_root h key k) (registry (api, h)) ∧
  (registry (api, h) = [] ∨
   (defined key ∧ Forall defined (registry (api, h)))) ∧
  providers s.1 = providers api ∧
  fallbackProvider s.1 = fallbackProvider api ∧
  objects s.2 = objects h ∧
  arrays h !! rootRegistry s.1 = None.
Proof.
  intros Hs.
  assert (arrays h !! rootRegistry s.1 = None) as Hfresh.
  { revert Hs. unfold removeRoot.
    destruct (filter_array _ _) as [kept |]; [| done].
    rewrite bind_Normal. simpl. intros [= <-]. apply (alloc_array_fresh h kept). }
  destruct (decide (registry (api, h) = [])) as [Hempty | Hne].
  - destruct (removeRoot_empty key api h Hempty) as (s0 & Hs0 & Hreg0).
    rewrite Hs in Hs0. injection Hs0 as <-. rewrite Hreg0, Hempty.
    split; [done | split; [by left |]].
    revert Hs. unfold removeRoot. unfold registry in Hempty. simpl in Hempty.
    rewrite Hempty. simpl. by intros [= <-].
  - assert (defined key ∧ Forall defined (registry (api, h))) as [Hkey Hall].
    { destruct (decide (nullish key ∨ Exists nullish (registry (api, h))))
        as [Hbad | Hgood].
      { rewrite (removeRoot_throws key api h Hne Hbad) in Hs. discriminate Hs. }
      split.
      - apply dec_stable. rewrite <- nullish_defined. tauto.
      - apply Forall_forall. intros k Hk. apply dec_stable.
        rewrite <- nullish_defined. intros Hnull. apply Hgood.
        right. apply Exists_exists. eauto. }
    destruct (removeRoot_defined key api h Hkey Hall)
      as (s0 & Hs0 & Hreg0 & Hp & Hf & Ho).
    rewrite Hs in Hs0. injection Hs0 as <-.
    split; [done | split; [by right | done]].
Qed.

Lemma removeRoot_lookup_property key api h s name :
  removeRoot key api h = Normal s →
  lookup_property s.1 name = lookup_property api name.
Proof.
  unfold removeRoot. destruct (filter_array _ _) as [kept |]; [| done].
  rewrite bind_Normal. simpl. by intros [= <-].
Qed.

Lemma Forall_defined_filter (P : value → Prop) `{∀ k, Decision (P k)}
    (l : list value) :
  Forall defined l → Forall defined (filter P l).
Proof.
  rewrite !Forall_forall. intros Hall k Hk.
  apply list_elem_of_filter in Hk as [_ Hk]. by apply Hall.
Qed.
End registry_composition.

(** X10. [removeRoot] is idempotent: when a call returns, the same call on
    the state it leaves returns too and changes nothing in the registry,
    and no remaining root has both the [identifier] and the [namespace] of
    the argument. *)
Theorem removeRoot_idempotent (key : value) (api : ObjectAPI.t) (h : heap)
    (s : ObjectAPI.t * heap) :
  removeRoot key api h = Normal s →
  Forall (λ k, ¬ same_root h key k) (registry s) ∧
  ∃ s', removeRoot key s.1 s.2 = Normal s' ∧ registry s' = registry s.
Proof.
  intros Hs.
  destruct (removeRoot_Normal key api h s Hs) as (Hreg & Hok & _ & _ & Hobj & _).
  split.
  { rewrite Hreg. apply Forall_forall. intros k Hk.
    by apply list_elem_of_filter in Hk as [Hk _]. }
  destruct Hok as [Hempty | [Hkey Hall]].
  - rewrite Hempty in Hreg. simpl in Hreg.
    destruct (removeRoot_empty key s.1 s.2) as (s' & Hs' & Hreg').
    { by rewrite registry_eta. }
    exists s'. by rewrite Hreg', Hreg.
  - destruct (removeRoot_defined key s.1 s.2 Hkey) as (s' & Hs' & Hreg' & _).
    { rewrite registry_eta, Hreg. by apply Forall_defined_filter. }
    exists s'. split; [exact Hs' |].
    rewrite Hreg', registry_eta, Hreg, list_filter_filter.
    apply list_filter_iff. intros k.
    rewrite (same_root_objects h s.2 key k Hobj). tauto.
Qed.

Lemma removeRoot_idempotent_witness :
  ∃ s s', removeRoot (VObj 0) (roots_of [VObj 4; VObj 1; VObj 0]).1
                     (roots_of [VObj 4; VObj 1; VObj 0]).2 = Normal s ∧
          removeRoot (VObj 0) s.1 s.2 = Normal s' ∧
          registry s' = registry s.
Proof.
  eexists.
  destruct (removeRoot_idempotent (VObj 0)
              (roots_of [VObj 4; VObj 1; VObj 0]).1
              (roots_of [VObj 4; VObj 1; VObj 0]).2 _ eq_refl)
    as (_ & s' & Hs' & Hreg').
  exists s'. split; [reflexivity | split; [exact Hs' | exact Hreg']].
Defined.

(** X11. Two removals commute: on a registry of objects, removing [a] then
    [b] and removing [b] then [a] both return and leave the same registry,
    the roots that match neither argument, in their order. *)
Theorem removeRoot_commute (a b : value) (api : ObjectAPI.t) (h : heap) :
  defined a → defined b → Forall defined (registry (api, h)) →
  ∃ s1 s2 t1 t2,
    removeRoot a api h = Normal s1 ∧ removeRoot b s1.1 s1.2 = Normal s2 ∧
    removeRoot b api h = Normal t1 ∧ removeRoot a t1.1 t1.2 = Normal t2 ∧
    registry s2 = registry t2 ∧
    registry s2 = filter (λ k, ¬ same_root h a k ∧ ¬ same_root h b k)
                         (registry (api, h)).
Proof.
  intros Ha Hb Hall.
  destruct (removeRoot_defined a api h Ha Hall) as (s1 & Hs1 & Hr1 & _ & _ & Ho1).
  destruct (removeRoot_defined b api h Hb Hall) as (t1 & Ht1 & Hq1 & _ & _ & Hp1).
  destruct (removeRoot_defined b s1.1 s1.2 Hb) as (s2 & Hs2 & Hr2 & _).
  { rewrite registry_eta, Hr1. by apply Forall_defined_filter. }
  destruct (removeRoot_defined a t1.1 t1.2 Ha) as (t2 & Ht2 & Hq2 & _).
  { rewrite registry_eta, Hq1. by apply Forall_defined_filter. }
  assert (registry s2 = filter (λ k, ¬ same_root h a k ∧ ¬ same_root h b k)
                               (registry (api, h))) as Hleft.
  { rewrite Hr2, registry_eta, Hr1, list_filter_filter.
    apply list_filter_iff. intros k.
    rewrite (same_root_objects h s1.2 b k Ho1). tauto. }
  assert (registry t2 = filter (λ k, ¬ same_root h a k ∧ ¬ same_root h b k)
                               (registry (api, h))) as Hright.
  { rewrite Hq2, registry_eta, Hq1, list_filter_filter.
    apply list_filter_iff. intros k.
    by rewrite (same_root_objects h t1.2 a k Hp1). }
  exists s1, s2, t1, t2. by rewrite Hleft, Hright.
Qed.

Lemma removeRoot_commute_witness :
  ∃ s1 s2 t1 t2,
    removeRoot (VObj 0) (roots_of [VObj 4; VObj 1; VObj 0]).1
               (roots_of [VObj 4; VObj 1; VObj 0]).2 = Normal s1 ∧
    removeRoot (VObj 4) s1.1 s1.2 = Normal s2 ∧
    removeRoot (VObj 4) (roots_of [VObj 4; VObj 1; VObj 0]).1
               (roots_of [VObj 4; VObj 1; VObj 0]).2 = Normal t1 ∧
    removeRoot (VObj 0) t1.1 t1.2 = Normal t2 ∧
    registry s2 = registry t2.
Proof.
  destruct (removeRoot_commute (VObj 0) (VObj 4)
              (roots_of [VObj 4; VObj 1; VObj 0]).1
              (roots_of [VObj 4; VObj 1; VObj 0]).2)
    as (s1 & s2 & t1 & t2 & H1 & H2 & H3 & H4 & Heq & _).
  - split; discriminate.
  - split; discriminate.
  - repeat (apply Forall_cons_2; [split; discriminate |]). apply Forall_nil_2.
  - exists s1, s2, t1, t2. auto.
Defined.

(** X12. [removeRoot(k)] after [addRoot(k)] leaves what [removeRoot(k)]
    alone would leave: the added root goes, and so does every earlier root
    with the [identifier] and the [namespace] of [k]. The registry is
    restored to what it was before [addRoot] exactly when no such earlier
    root was registered. *)
Theorem addRoot_removeRoot (k : value) (api : ObjectAPI.t) (h : heap) :
  defined k → Forall defined (registry (api, h)) →
  ∃ s, removeRoot k (addRoot k api h).1 (addRoot k api h).2 = Normal s ∧
       registry s = filter (λ r, ¬ same_root h k r) (registry (api, h)) ∧
       (registry s = registry (api, h) ↔
        Forall (λ r, ¬ same_root h k r) (registry (api, h))).
Proof.
  intros Hk Hall.
  destruct (removeRoot_defined k (addRoot k api h).1 (addRoot k api h).2 Hk)
    as (s & Hs & Hreg & _).
  { rewrite registry_eta, addRoot_registry. by apply Forall_cons_2. }
  assert (registry s = filter (λ r, ¬ same_root h k r) (registry (api, h)))
    as Hfilter.
  { rewrite Hreg, registry_eta, addRoot_registry.
    rewrite filter_cons_False.
    - apply list_filter_iff. intros r. by rewrite same_root_addRoot.
    - intros Hnot. apply Hnot, same_root_refl. }
  exists s. split; [exact Hs | split; [exact Hfilter |]].
  rewrite Hfilter. split.
  - intros Heq. rewrite <- Heq. apply Forall_forall. intros r Hr.
    by apply list_elem_of_filter in Hr as [Hr _].
  - intros Hno. clear -Hno.
    induction Hno as [| r l Hr _ IH]; [done |].
    by rewrite filter_cons_True, IH.
Qed.

Lemma addRoot_removeRoot_witness :
  ∃ s, removeRoot (VObj 1) (addRoot (VObj 1) (roots_of [VObj 4; VObj 0]).1
                                             (roots_of [VObj 4; VObj 0]).2).1
                  (addRoot (VObj 1) (roots_of [VObj 4; VObj 0]).1
                                    (roots_of [VObj 4; VObj 0]).2).2 = Normal s ∧
       registry s = [VObj 4].
Proof.
  destruct (addRoot_removeRoot (VObj 1) (roots_of [VObj 4; VObj 0]).1
              (roots_of [VObj 4; VObj 0]).2) as (s & Hs & Hreg & _).
  - split; discriminate.
  - repeat (apply Forall_cons_2; [split; discriminate |]). apply Forall_nil_2.
  - exists s. split; [exact Hs |]. rewrite Hreg. reflexivity.
Defined.

(** X13. The two registry operations differ for a root object that was
    fetched earlier: [addRoot] changes the array the object refers to, so
    the object shows the new root, while [removeRoot] installs a new array,
    so the object keeps showing the roots as they were before the removal. *)
Theorem root_object_after_update (api : ObjectAPI.t) (h : heap)
    (arguments : list value) :
  is_Some (arrays h !! rootRegistry api) →
  (∀ k, composition_of (addRoot k api h).2 (rootProvider_get api arguments)
          = Some (k :: registry (api, h)) ∧
        rootRegistry (addRoot k api h).1 = rootRegistry api) ∧
  (∀ key s, removeRoot key api h = Normal s →
     composition_of s.2 (rootProvider_get api arguments)
       = Some (registry (api, h)) ∧
     rootRegistry s.1 ≠ rootRegistry api).
Proof.
  intros Halloc. split.
  - intros k. split; [apply root_object_sees_addRoot | done].
  - intros key s Hs. split.
    + by apply (root_object_misses_removeRoot api h key s).
    + destruct (removeRoot_Normal key api h s Hs) as (_ & _ & _ & _ & _ & Hfresh).
      intros Heq. rewrite Heq in Hfresh. rewrite Hfresh in Halloc.
      by destruct Halloc.
Qed.

Lemma root_object_after_update_witness :
  ∃ s, removeRoot (VObj 0) (roots_of [VObj 1; VObj 0]).1
                  (roots_of [VObj 1; VObj 0]).2 = Normal s ∧
       registry s = [] ∧
       composition_of s.2 (rootProvider_get (roots_of [VObj 1; VObj 0]).1 [])
         = Some [VObj 1; VObj 0].
Proof.
  eexists. split; [reflexivity | split; [reflexivity |]].
  destruct (root_object_after_update (roots_of [VObj 1; VObj 0]).1
              (roots_of [VObj 1; VObj 0]).2 []) as [_ Hstale].
  - eexists. reflexivity.
  - destruct (Hstale (VObj 0) _ eq_refl) as [Hold _]. exact Hold.
Defined.

(** X14. A newly constructed API has an empty root composition, no
    provider and no fallback: [get] on the root sentinel resolves with the
    empty composition; a call on a key that is not the sentinel throws
    ["No Provider Matched"] when its namespace is not a property name of
    [Object.prototype], and the unsupported-operation error when it is
    one, such as ["toString"]. *)
Theorem new_api (h : heap) (m : method_name) (key id ns : value)
    (rest : list value) :
  get_field (new h).2 key "identifier" = Normal id →
  get_field (new h).2 key "namespace" = Normal ns →
  registry (new h) = [] ∧
  (id = VStr "ROOT" →
     composition_of (new h).2 (get (new h).1 (new h).2 (key :: rest)) = Some []) ∧
  (id ≠ VStr "ROOT" → to_property_key ns ∉ object_prototype_names →
     dispatch m (new h).1 (new h).2 (key :: rest)
       = Throw (Error "No Provider Matched")) ∧
  (id ≠ VStr "ROOT" → to_property_key ns ∈ object_prototype_names →
     dispatch m (new h).1 (new h).2 (key :: rest)
       = Throw (Error ("Provider does not support [" +:+ method_string m +:+ "]."))).
Proof.
  intros Hid Hns. destruct (new_empty h) as (Hp & Hf & Hreg).
  assert (providers_proto (new h).1 = None) as Hproto by done.
  split; [exact Hreg | split; [| split]].
  - intros ->. destruct (get_root (new h).1 (new h).2 key rest Hid) as [_ ->].
    by rewrite registry_eta, Hreg.
  - intros Hne Hnot. apply dispatch_no_provider. simpl nth.
    rewrite (getProvider_namespace _ _ _ _ _ Hid Hne Hns).
    assert (lookup_property (new h).1 (to_property_key ns) = None) as ->.
    { apply (lookup_property_None _ _ Hproto). by rewrite Hp, lookup_empty. }
    by rewrite Hf.
  - intros Hne Hin.
    apply (dispatch_unsupported m _ _ (key :: rest)
             (Builtin (to_property_key ns))); [| done].
    simpl nth. rewrite (getProvider_namespace _ _ _ _ _ Hid Hne Hns).
    rewrite (lookup_property_inherited _ _ Hproto); [done | | done].
    by rewrite Hp, lookup_empty.
Qed.

Lemma new_api_witness :
  composition_of (new sample_heap).2
    (get (new sample_heap).1 (new sample_heap).2 [VObj 2]) = Some [] ∧
  save (new sample_heap).1 (new sample_heap).2 [VObj 3]
    = Throw (Error "No Provider Matched") ∧
  get (new inherited_heap).1 (new inherited_heap).2 [VObj 0]
    = Throw (Error "Provider does not support [get].").
Proof.
  split; [| split].
  - destruct (new_api sample_heap MGet (VObj 2) (VStr "ROOT") (VStr "other") [])
      as (_ & Hroot & _); [reflexivity | reflexivity |].
    by apply Hroot.
  - destruct (new_api sample_heap MSave (VObj 3) (VObj 0) VUndefined [])
      as (_ & _ & Hnone & _); [reflexivity | reflexivity |].
    apply Hnone; [discriminate |].
    apply object_prototype_property_None. reflexivity.
  - destruct (new_api inherited_heap MGet (VObj 0) VUndefined (VStr "toString") [])
      as (_ & _ & _ & Hinherited); [reflexivity | reflexivity |].
    apply Hinherited; [discriminate |].
    apply (bool_decide_unpack _). exact I.
Defined.

(** X15. Every API has a registry of its own: constructing another API
    and adding roots to it leaves the registry of an existing one as it
    was. *)
Theorem new_registry_separate (api : ObjectAPI.t) (h : heap) (keys : list value) :
  is_Some (arrays h !! rootRegistry api) →
  rootRegistry (new h).1 ≠ rootRegistry api ∧
  registry (api, (new h).2) = registry (api, h) ∧
  registry (add_roots keys (new h)) = rev keys ∧
  registry (api, (add_roots keys (new h)).2) = registry (api, h).
Proof.
  intros Halloc.
  assert (rootRegistry (new h).1 ≠ rootRegistry api) as Hne.
  { intros Heq. pose proof (alloc_array_fresh h []) as Hfresh.
    simpl in Heq, Hfresh. rewrite Heq in Hfresh. rewrite Hfresh in Halloc.
    by destruct Halloc. }
  assert (∀ s, s.1 = (new h).1 →
               registry (api, (add_roots keys s).2) = registry (api, s.2))
    as Hkeep.
  { induction keys as [| k keys IH]; intros s Hs; [done |].
    simpl. rewrite IH by done. unfold registry, addRoot. simpl.
    apply read_write_array_ne. by rewrite Hs. }
  assert (registry (api, (new h).2) = registry (api, h)) as Hnew.
  { unfold registry. simpl. by apply read_write_array_ne. }
  split; [exact Hne | split; [exact Hnew | split]].
  - destruct (new_empty h) as (_ & _ & Hreg).
    by rewrite add_roots_registry, Hreg, app_nil_r.
  - by rewrite Hkeep, Hnew.
Qed.

Lemma new_registry_separate_witness :
  registry (add_roots [VObj 0; VObj 1] (new fresh_heap)) = [VObj 1; VObj 0] ∧
  registry (fresh_api, (add_roots [VObj 0; VObj 1] (new fresh_heap)).2) = [].
Proof.
  destruct (new_registry_separate fresh_api fresh_heap [VObj 0; VObj 1])
    as (_ & _ & Hnew & Hold).
  - eexists. reflexivity.
  - split; [exact Hnew | rewrite Hold; reflexivity].
Defined.

(** X16. The registry operations do not touch the routing: after [addRoot],
    and after a [removeRoot] that returns, every key resolves to the
    provider it resolved to before. *)
Theorem registry_updates_keep_routing (k key : value) (api : ObjectAPI.t)
    (h : heap) :
  getProvider (addRoot k api h).1 (addRoot k api h).2 key = getProvider api h key ∧
  (∀ s, removeRoot k api h = Normal s →
        getProvider s.1 s.2 key = getProvider api h key).
Proof.
  split.
  - unfold getProvider, addRoot. simpl. by rewrite !get_field_write_array.
  - intros s Hs.
    destruct (removeRoot_Normal k api h s Hs) as (_ & _ & Hp & Hf & Hobj & _).
    unfold getProvider. rewrite Hf.
    assert (∀ f, get_field s.2 key f = get_field h key f) as Hfield.
    { intros f. destruct key; simpl; by rewrite ?Hobj. }
    rewrite !Hfield.
    destruct (get_field h key "identifier") as [id |]; [| done].
    rewrite !bind_Normal. destruct (strict_eq id (VStr "ROOT")); [done |].
    destruct (get_field h key "namespace") as [ns |]; [| done].
    rewrite !bind_Normal.
    by rewrite (removeRoot_lookup_property k api h s _ Hs).
Qed.

Lemma registry_updates_keep_routing_witness :
  ∃ s, removeRoot (VObj 0) (roots_of [VObj 0]).1 (roots_of [VObj 0]).2 = Normal s ∧
       getProvider s.1 s.2 (VObj 2) = Normal (Some (Provider rootProvider)).
Proof.
  eexists. split; [reflexivity |].
  destruct (registry_updates_keep_routing (VObj 0) (VObj 2)
              (roots_of [VObj 0]).1 (roots_of [VObj 0]).2) as [_ Hrem].
  rewrite (Hrem _ eq_refl). reflexivity.
Defined.
